(** * Customer service (backend/app.py): model and properties

    A shallow embedding of the Flask handlers of [backend/app.py] and of the
    [customer] table they work on.

    Modelling choices.
    - The request body [data] is a JSON object.  The handlers read five keys
      of it and nothing else, so the payload is a record of these five keys;
      each key is absent, bound to JSON [null], or bound to a value of the
      type of its column: a text for [name], [email] and [status], an
      integer for [totalOrders], a floating-point number for [totalSpent].
    - The table is the list of its rows in store order.  The column
      declarations of [class Customer] give the constraints checked when a
      transaction is committed: [nullable=False] on [name] and [email],
      [unique=True] on [email], the integer primary key [id], and the column
      defaults, which the insert applies to attributes that are [None].
    - A counter is an integer of [Z], as in Python.  The store keeps 64-bit
      integers: an integer outside that range cannot be bound to a statement
      and raises [OverflowError], and the integer SUM of the statistics
      raises when a partial sum leaves the range.
    - An amount ([total_spent], a [Float] column) is the rational value of
      the stored number.  The arithmetic on amounts, that is, the SUM of the
      store over a floating-point column and the division of Python, is a
      parameter of the statistics ([arith]); [get_stats] is the instance at
      exact arithmetic.
    - [customer_id] is the value of the URL converter [<int:customer_id>],
      which matches digits only and so is never negative.
    - A handler is a function from the store before the request to the
      response and the store after it.  An exception raised inside a [try]
      block is a value of [exc]; the [except Exception] clause turns it into
      the response 500 and rolls the session back. *)

From Stdlib Require Import List ZArith QArith Bool String Lia.
Import ListNotations.

Open Scope string_scope.
Open Scope Z_scope.
Open Scope list_scope.

(** ** Python values *)

(** One key of the JSON object [data]. *)
Inductive field (A : Type) : Type :=
| Absent : field A
| Null : field A
| Val : A -> field A.

Arguments Absent {A}.
Arguments Null {A}.
Arguments Val {A} _.

(** [data.get(k)]: [None] when the key is absent. *)
Definition get {A : Type} (f : field A) : option A :=
  match f with
  | Absent => None
  | Null => None
  | Val a => Some a
  end.

(** [data.get(k, d)]: [d] only when the key is absent. *)
Definition get_default {A : Type} (f : field A) (d : option A) : option A :=
  match f with
  | Absent => d
  | Null => None
  | Val a => Some a
  end.

(** The exceptions the handlers can meet. *)
Inductive exc : Type :=
| NotFound                              (* werkzeug.exceptions.NotFound, raised by get_or_404 *)
| KeyError (key : string)               (* data[k] on an absent key *)
| IntegrityError_not_null (col : string)
| IntegrityError_unique (col : string)
| OverflowError                         (* an int too large to convert to SQLite INTEGER *)
| OperationalError (msg : string)       (* raised by the store while a statement runs *)
| ZeroDivisionError.

Inductive result (A : Type) : Type :=
| Ok : A -> result A
| Raise : exc -> result A.

Arguments Ok {A} _.
Arguments Raise {A} _.

Definition bind {A B : Type} (r : result A) (k : A -> result B) : result B :=
  match r with
  | Ok a => k a
  | Raise e => Raise e
  end.

Notation "x <- r ;; k" := (bind r (fun x => k))
  (at level 61, r at next level, right associativity).

(** [data[k]]. *)
Definition subscript {A : Type} (key : string) (f : field A) : result (option A) :=
  match f with
  | Absent => Raise (KeyError key)
  | Null => Ok None
  | Val a => Ok (Some a)
  end.

(** Truth value of [data.get(k)] for a text key: [None] and [''] are false. *)
Definition truthy (v : option string) : bool :=
  match v with
  | None => false
  | Some s => negb (s =? "")%string
  end.

Record payload : Type := mkPayload {
  p_name : field string;
  p_email : field string;
  p_status : field string;
  p_totalOrders : field Z;
  p_totalSpent : field Q
}.

(** ** The model class and the table *)

Definition datetime : Type := Z.

(** A persisted [Customer]: one row of the table. *)
Record Customer : Type := mkCustomer {
  id : Z;
  name : option string;
  email : option string;
  status : option string;
  total_orders : option Z;
  total_spent : option Q;
  join_date : datetime
}.

(** The keyword arguments of a [Customer(...)] call: the pending object has
    neither [id] nor [join_date] before it is flushed. *)
Record Customer_args : Type := mkArgs {
  a_name : option string;
  a_email : option string;
  a_status : option string;
  a_total_orders : option Z;
  a_total_spent : option Q
}.

Definition store : Type := list Customer.

(** The wire object built by [to_dict]. *)
Record wire : Type := mkWire {
  w_id : Z;
  w_name : option string;
  w_email : option string;
  w_status : option string;
  w_totalOrders : option Z;
  w_totalSpent : option Q;
  w_joinDate : datetime
}.

Definition to_dict (self : Customer) : wire :=
  {| w_id := id self;
     w_name := name self;
     w_email := email self;
     w_status := status self;
     w_totalOrders := total_orders self;
     w_totalSpent := total_spent self;
     w_joinDate := join_date self |}.

Record stats : Type := mkStats {
  totalCustomers : Z;
  activeCustomers : Z;
  totalRevenue : Q;
  avgOrderValue : Q
}.

Inductive body : Type :=
| BCustomers (l : list wire)
| BCustomer (w : wire)
| BStats (s : stats)
| BError (msg : string)          (* {'error': msg} with a literal message *)
| BException (e : exc)           (* {'error': str(e)} *)
| BHealth (st msg : string)
| BEmpty.                        (* '' *)

Record response : Type := mkResponse {
  code : Z;
  resp_body : body
}.

(** ** Queries *)

Definition text_eqb (a b : option string) : bool :=
  match a, b with
  | Some x, Some y => (x =? y)%string
  | _, _ => false
  end.

(** [Customer.query.filter_by(email=v)]: a [None] argument selects the rows
    whose email is NULL. *)
Definition filter_by_email (v : option string) (db : store) : store :=
  match v with
  | Some _ => filter (fun c => text_eqb (email c) v) db
  | None => filter (fun c => match email c with None => true | Some _ => false end) db
  end.

Definition filter_by_status (v : string) (db : store) : store :=
  filter (fun c => text_eqb (status c) (Some v)) db.

(** [.first()] *)
Definition first (rows : store) : option Customer := hd_error rows.

(** [Customer.query.get(ident)] *)
Definition query_get (ident : Z) (db : store) : option Customer :=
  find (fun c => id c =? ident) db.

(** The integers the store can hold and a statement can bind. *)
Definition int64 (n : Z) : bool := (- 2 ^ 63 <=? n) && (n <? 2 ^ 63).

(** Binding an integer parameter of a statement. *)
Definition bind_int (v : option Z) : result unit :=
  match v with
  | None => Ok tt
  | Some n => if int64 n then Ok tt else Raise OverflowError
  end.

(** [Customer.query.get_or_404(ident)]: aborts with 404, that is, raises
    [NotFound], when there is no such row.  The SELECT binds [ident]; the
    keys of the table are 64-bit integers, so an identifier outside that
    range has no row, and binding it raises [OverflowError]. *)
Definition get_or_404 (ident : Z) (db : store) : result Customer :=
  match query_get ident db with
  | Some c => Ok c
  | None => if int64 ident then Raise NotFound else Raise OverflowError
  end.

(** ** Writes *)

(** The integer primary key given to a new row: one more than the largest
    key of the table, 1 on an empty table. *)
Definition max_id (db : store) : Z :=
  fold_right (fun c m => Z.max (id c) m) 0 db.

Definition next_id (db : store) : Z := max_id db + 1.

Definition or_default {A : Type} (v : option A) (d : A) : option A :=
  match v with
  | Some a => Some a
  | None => Some d
  end.

(** The row an INSERT writes for a pending object: a column default replaces
    an attribute that is [None] ([status], [total_orders], [total_spent],
    and [join_date] from [datetime.utcnow]); [name] and [email] have none. *)
Definition flush_new (now : datetime) (args : Customer_args) (db : store) : Customer :=
  {| id := next_id db;
     name := a_name args;
     email := a_email args;
     status := or_default (a_status args) "active";
     total_orders := or_default (a_total_orders args) 0;
     total_spent := or_default (a_total_spent args) 0%Q;
     join_date := now |}.

(** [nullable=False] on [name] and [email]. *)
Definition check_not_null (c : Customer) : result unit :=
  match name c, email c with
  | None, _ => Raise (IntegrityError_not_null "customer.name")
  | Some _, None => Raise (IntegrityError_not_null "customer.email")
  | Some _, Some _ => Ok tt
  end.

(** [unique=True] on [email], against the other rows of the table. *)
Definition check_unique (c : Customer) (others : store) : result unit :=
  if existsb (fun o => text_eqb (email o) (email c)) others
  then Raise (IntegrityError_unique "customer.email")
  else Ok tt.

(** [db.session.add(customer)] followed by the flush of that object: the
    INSERT binds its parameters, then the table checks its constraints. *)
Definition session_add (now : datetime) (args : Customer_args) (db : store)
  : result (Customer * store) :=
  let row := flush_new now args db in
  _ <- bind_int (total_orders row) ;;
  _ <- check_not_null row ;;
  _ <- check_unique row db ;;
  Ok (row, db ++ [row]).

(** The UPDATE of the row with the primary key of [c]. *)
Definition replace_row (c : Customer) (db : store) : store :=
  map (fun o => if id o =? id c then c else o) db.

Definition others_of (ident : Z) (db : store) : store :=
  filter (fun o => negb (id o =? ident)) db.

(** Python's [==] on two values of the counter attribute. *)
Definition same_int (a b : option Z) : bool :=
  match a, b with
  | None, None => true
  | Some x, Some y => x =? y
  | _, _ => false
  end.

(** The flush of a loaded object whose attributes were assigned: the UPDATE
    carries, and so binds, only the attributes whose value has changed. *)
Definition bind_changed (loaded c : Customer) : result unit :=
  if same_int (total_orders loaded) (total_orders c)
  then Ok tt
  else bind_int (total_orders c).

Definition session_update (loaded c : Customer) (db : store) : result store :=
  _ <- bind_changed loaded c ;;
  _ <- check_not_null c ;;
  _ <- check_unique c (others_of (id c) db) ;;
  Ok (replace_row c db).

(** [db.session.delete(customer)] and its flush. *)
Definition session_delete (c : Customer) (db : store) : store :=
  others_of (id c) db.

(** ** Routes *)

(** The [except Exception] clause of the writing handlers:
    [db.session.rollback()] restores the store the request started from, and
    the answer is [{'error': str(e)}] with 500. *)
Definition rollback_500 (db : store) (r : result (response * store))
  : response * store :=
  match r with
  | Ok out => out
  | Raise e => (mkResponse 500 (BException e), db)
  end.

(** GET /api/customers *)
Definition get_customers (db : store) : response :=
  let customers := db in
  mkResponse 200 (BCustomers (map to_dict customers)).

(** POST /api/customers: the body of the [try] block. *)
Definition create_customer_try (now : datetime) (data : payload) (db : store)
  : result (response * store) :=
  if negb (truthy (get (p_name data))) || negb (truthy (get (p_email data)))
  then Ok (mkResponse 400 (BError "Name and email are required"), db)
  else
    email_arg <- subscript "email" (p_email data) ;;
    let existing_customer := first (filter_by_email email_arg db) in
    match existing_customer with
    | Some _ => Ok (mkResponse 400 (BError "Email already exists"), db)
    | None =>
        name_arg <- subscript "name" (p_name data) ;;
        let customer :=
          {| a_name := name_arg;
             a_email := email_arg;
             a_status := get_default (p_status data) (Some "active");
             a_total_orders := get_default (p_totalOrders data) (Some 0);
             a_total_spent := get_default (p_totalSpent data) (Some 0%Q) |} in
        added <- session_add now customer db ;;
        Ok (mkResponse 201 (BCustomer (to_dict (fst added))), snd added)
    end.

Definition create_customer (now : datetime) (data : payload) (db : store)
  : response * store :=
  rollback_500 db (create_customer_try now data db).

(** The five assignments [customer.x = data.get('x', customer.x)] of
    [update_customer]; [id] and [join_date] are not assigned. *)
Definition assign_fields (data : payload) (customer : Customer) : Customer :=
  {| id := id customer;
     name := get_default (p_name data) (name customer);
     email := get_default (p_email data) (email customer);
     status := get_default (p_status data) (status customer);
     total_orders := get_default (p_totalOrders data) (total_orders customer);
     total_spent := get_default (p_totalSpent data) (total_spent customer);
     join_date := join_date customer |}.

(** PUT /api/customers/<int:customer_id>: the body of the [try] block. *)
Definition update_customer_try (customer_id : Z) (data : payload) (db : store)
  : result (response * store) :=
  customer <- get_or_404 customer_id db ;;
  let customer' := assign_fields data customer in
  db' <- session_update customer customer' db ;;
  Ok (mkResponse 200 (BCustomer (to_dict customer')), db').

Definition update_customer (customer_id : Z) (data : payload) (db : store)
  : response * store :=
  rollback_500 db (update_customer_try customer_id data db).

(** DELETE /api/customers/<int:customer_id>: the body of the [try] block. *)
Definition delete_customer_try (customer_id : Z) (db : store)
  : result (response * store) :=
  customer <- get_or_404 customer_id db ;;
  Ok (mkResponse 204 BEmpty, session_delete customer db).

Definition delete_customer (customer_id : Z) (db : store) : response * store :=
  rollback_500 db (delete_customer_try customer_id db).

(** The arithmetic on amounts that the handlers leave to the store and to
    Python: [real_sum], the SUM of the store over the values, in row order,
    of a floating-point column that are not NULL (there is at least one);
    [true_div], Python's [x / n] for an integer [n] that is not 0. *)
Record arith : Type := mkArith {
  real_sum : list Q -> Q;
  true_div : Q -> Z -> Q
}.

(** Arithmetic without rounding. *)
Definition exact_arith : arith :=
  {| real_sum := fun vs => fold_left Qplus vs 0%Q;
     true_div := fun x n => (x / inject_Z n)%Q |}.

(** The values of a column that are not NULL, in row order. *)
Fixpoint not_null {A : Type} (col : list (option A)) : list A :=
  match col with
  | [] => []
  | None :: rest => not_null rest
  | Some v :: rest => v :: not_null rest
  end.

(** SQL [SUM] over a floating-point column: NULL entries are skipped, and
    the sum of no value at all is NULL. *)
Definition sql_sum_real (ar : arith) (col : list (option Q)) : option Q :=
  match not_null col with
  | [] => None
  | vs => Some (real_sum ar vs)
  end.

(** SQL [SUM] over an integer column: NULL entries are skipped, the sum of
    no value at all is NULL, and the statement fails with "integer overflow"
    as soon as a partial sum leaves the 64-bit range. *)
Definition sum_int_step (acc : result (option Z)) (v : option Z)
  : result (option Z) :=
  a <- acc ;;
  match v with
  | None => Ok a
  | Some x =>
      match a with
      | None => Ok (Some x)
      | Some y =>
          if int64 (y + x) then Ok (Some (y + x))
          else Raise (OperationalError "integer overflow")
      end
  end.

Definition sql_sum_int (col : list (option Z)) : result (option Z) :=
  fold_left sum_int_step col (Ok None).

(** Python's [x or 0] on the result of [scalar()]: [None] and a zero sum
    both give 0. *)
Definition or_zero_Q (v : option Q) : Q :=
  match v with
  | None => 0%Q
  | Some q => if Qeq_bool q 0 then 0%Q else q
  end.

Definition or_zero_Z (v : option Z) : Z :=
  match v with
  | None => 0
  | Some z => if z =? 0 then 0 else z
  end.

(** Python's [x / n]. *)
Definition truediv (ar : arith) (x : Q) (n : Z) : result Q :=
  if n =? 0 then Raise ZeroDivisionError else Ok (true_div ar x n).

(** GET /api/stats: the body of the [try] block. *)
Definition get_stats_try (ar : arith) (db : store) : result response :=
  let total_customers := Z.of_nat (List.length db) in
  let active_customers := Z.of_nat (List.length (filter_by_status "active" db)) in
  let total_revenue := or_zero_Q (sql_sum_real ar (map total_spent db)) in
  orders_sum <- sql_sum_int (map total_orders db) ;;
  let total_orders := or_zero_Z orders_sum in
  avg_order_value <-
    (if 0 <? total_orders then truediv ar total_revenue total_orders else Ok 0%Q) ;;
  Ok (mkResponse 200
        (BStats {| totalCustomers := total_customers;
                   activeCustomers := active_customers;
                   totalRevenue := total_revenue;
                   avgOrderValue := avg_order_value |})).

(** Its [except Exception] clause: [{'error': str(e)}] with 500. *)
Definition get_stats_with (ar : arith) (db : store) : response :=
  match get_stats_try ar db with
  | Ok r => r
  | Raise e => mkResponse 500 (BException e)
  end.

Definition get_stats (db : store) : response := get_stats_with exact_arith db.

(** GET /api/health *)
Definition health_check : response :=
  mkResponse 200 (BHealth "healthy" "API is running").

(** ** Start-up *)

Definition sample_customers : list Customer_args :=
  [ mkArgs (Some "John Doe") (Some "john@example.com") (Some "active") (Some 15) (Some 2850.50%Q);
    mkArgs (Some "Jane Smith") (Some "jane@example.com") (Some "active") (Some 8) (Some 1250.00%Q);
    mkArgs (Some "Bob Johnson") (Some "bob@example.com") (Some "inactive") (Some 3) (Some 450.75%Q);
    mkArgs (Some "Alice Brown") (Some "alice@example.com") (Some "active") (Some 22) (Some 4200.25%Q);
    mkArgs (Some "Charlie Wilson") (Some "charlie@example.com") (Some "pending") (Some 0) (Some 0.00%Q) ].

(** The loop [for customer in sample_customers: db.session.add(customer)]. *)
Fixpoint add_all (now : datetime) (l : list Customer_args) (db : store) : result store :=
  match l with
  | [] => Ok db
  | customer :: rest =>
      added <- session_add now customer db ;;
      add_all now rest (snd added)
  end.

(** The [__main__] block after [db.create_all()]: the sample rows are added
    when the table is empty.  No [try] surrounds it. *)
Definition main_seed (now : datetime) (db : store) : result store :=
  if Z.of_nat (List.length db) =? 0
  then add_all now sample_customers db
  else Ok db.

(** ** Store states *)

(** What the table's constraints guarantee of a committed state: distinct
    primary keys, distinct emails, and no NULL in [name] or [email]. *)
Definition row_not_null (c : Customer) : Prop :=
  name c <> None /\ email c <> None.

Record store_ok (db : store) : Prop := mk_store_ok {
  ok_ids : NoDup (map id db);
  ok_emails : NoDup (map email db);
  ok_not_null : Forall row_not_null db
}.

(** The seeded table, when the start-up found the table empty. *)
Definition seeded (now : datetime) (db : store) : Prop :=
  main_seed now [] = Ok db.

(** States reached from the empty or the seeded table by requests whose
    payloads satisfy [P]. *)
Inductive reachable_by (P : payload -> Prop) : store -> Prop :=
| reach_empty : reachable_by P []
| reach_seeded : forall now db, seeded now db -> reachable_by P db
| reach_create : forall now data db,
    reachable_by P db -> P data ->
    reachable_by P (snd (create_customer now data db))
| reach_update : forall customer_id data db,
    reachable_by P db -> P data ->
    reachable_by P (snd (update_customer customer_id data db))
| reach_delete : forall customer_id db,
    reachable_by P db ->
    reachable_by P (snd (delete_customer customer_id db)).

Definition reachable : store -> Prop := reachable_by (fun _ => True).

(** A stored counter or amount that is a number and not below zero. *)
Definition nonneg_row (c : Customer) : Prop :=
  (exists n, total_orders c = Some n /\ 0 <= n) /\
  (exists q, total_spent c = Some q /\ (0 <= q)%Q).

(** A payload whose [totalOrders] and [totalSpent] are each absent or bound
    to a number that is not below zero. *)
Definition nonneg_field_Z (f : field Z) : Prop :=
  match f with
  | Absent => True
  | Null => False
  | Val n => 0 <= n
  end.

Definition nonneg_field_Q (f : field Q) : Prop :=
  match f with
  | Absent => True
  | Null => False
  | Val q => (0 <= q)%Q
  end.

Definition nonneg_payload (data : payload) : Prop :=
  nonneg_field_Z (p_totalOrders data) /\ nonneg_field_Q (p_totalSpent data).

(** A text key that [create_customer] rejects: absent, null or [""]. *)
Definition missing_or_empty (f : field string) : Prop :=
  f = Absent \/ f = Null \/ f = Val "".


(** The arguments [create_customer] passes to [Customer(...)] when the
    payload binds name and email to the texts [n] and [e]. *)
Definition create_args (data : payload) (n e : string) : Customer_args :=
  {| a_name := Some n;
     a_email := Some e;
     a_status := get_default (p_status data) (Some "active");
     a_total_orders := get_default (p_totalOrders data) (Some 0);
     a_total_spent := get_default (p_totalSpent data) (Some 0%Q) |}.

(** A payload whose [totalOrders], when it is a number, is one the store
    can hold. *)
Definition counter_fits (data : payload) : Prop :=
  forall k, p_totalOrders data = Val k -> int64 k = true.

(** A payload the table accepts for the row [customer_id]: neither [name]
    nor [email] is set to null, a new email is not the email of another
    row, and a new counter is one the store can hold. *)
Definition acceptable (customer_id : Z) (data : payload) (db : store) : Prop :=
  p_name data <> Null /\ p_email data <> Null /\
  (forall e o, p_email data = Val e -> In o db -> id o <> customer_id ->
               email o <> Some e) /\
  counter_fits data.

(** The rows written by the start-up on an empty table. *)
Definition seed_rows (now : datetime) : store :=
  [ mkCustomer 1 (Some "John Doe") (Some "john@example.com") (Some "active")
      (Some 15) (Some 2850.50%Q) now;
    mkCustomer 2 (Some "Jane Smith") (Some "jane@example.com") (Some "active")
      (Some 8) (Some 1250.00%Q) now;
    mkCustomer 3 (Some "Bob Johnson") (Some "bob@example.com") (Some "inactive")
      (Some 3) (Some 450.75%Q) now;
    mkCustomer 4 (Some "Alice Brown") (Some "alice@example.com") (Some "active")
      (Some 22) (Some 4200.25%Q) now;
    mkCustomer 5 (Some "Charlie Wilson") (Some "charlie@example.com") (Some "pending")
      (Some 0) (Some 0.00%Q) now ].

(** The empty JSON object. *)
Definition no_fields : payload := mkPayload Absent Absent Absent Absent Absent.

(** ** Reference sums for the statistics *)

Fixpoint count_active (db : store) : nat :=
  match db with
  | [] => O
  | c :: rest =>
      match status c with
      | Some s => if string_dec s "active" then S (count_active rest) else count_active rest
      | None => count_active rest
      end
  end.

(** The amounts of the table that are not null, in row order. *)
Fixpoint amounts (db : store) : list Q :=
  match db with
  | [] => []
  | c :: rest =>
      match total_spent c with
      | Some q => q :: amounts rest
      | None => amounts rest
      end
  end.

(** The sum of the counters of the table; a null adds nothing. *)
Fixpoint sum_orders (db : store) : Z :=
  match db with
  | [] => 0
  | c :: rest =>
      match total_orders c with
      | Some n => n + sum_orders rest
      | None => sum_orders rest
      end
  end.

(** The number a sum stands for, with 0 for NULL. *)
Definition value_or_zero_Z (v : option Z) : Z :=
  match v with Some z => z | None => 0 end.

(** ** Lemmas on the table *)

Lemma text_eqb_Some (a : option string) (s : string) :
  text_eqb a (Some s) = true <-> a = Some s.
Proof.
  destruct a as [x|]; simpl.
  - rewrite String.eqb_eq. split; congruence.
  - split; discriminate.
Qed.

Lemma truthy_true (v : option string) :
  truthy v = true <-> exists s, v = Some s /\ s <> "".
Proof.
  destruct v as [s|]; simpl.
  - rewrite negb_true_iff, String.eqb_neq. split.
    + intros H. exists s. auto.
    + intros (s' & E & H). congruence.
  - split; [discriminate | intros (s & E & _); discriminate].
Qed.

Lemma max_id_ge (db : store) (c : Customer) : In c db -> id c <= max_id db.
Proof.
  induction db as [|o db IH]; simpl; [tauto|].
  intros [->|H]; [lia | specialize (IH H); lia].
Qed.

Lemma next_id_fresh (db : store) : ~ In (next_id db) (map id db).
Proof.
  rewrite in_map_iff. intros (c & E & H).
  apply max_id_ge in H. unfold next_id in E. lia.
Qed.

Lemma query_get_Some (ident : Z) (db : store) (c : Customer) :
  query_get ident db = Some c -> In c db /\ id c = ident.
Proof.
  unfold query_get. intros H. apply find_some in H.
  destruct H as [H1 H2]. apply Z.eqb_eq in H2. auto.
Qed.

Lemma query_get_None (ident : Z) (db : store) :
  query_get ident db = None <-> ~ In ident (map id db).
Proof.
  unfold query_get. split.
  - intros H Hin. apply in_map_iff in Hin. destruct Hin as (c & E & Hc).
    apply (find_none _ _ H) in Hc. apply Z.eqb_neq in Hc. congruence.
  - intros H. induction db as [|o db IH]; simpl in *; [reflexivity|].
    destruct (id o =? ident) eqn:E.
    + apply Z.eqb_eq in E. tauto.
    + apply IH. tauto.
Qed.

(** With distinct keys, the row found by its key splits the table in the
    rows before it and the rows after it, none of which has that key. *)
Lemma split_at_id (ident : Z) (db : store) (c : Customer) :
  NoDup (map id db) -> query_get ident db = Some c ->
  exists l1 l2,
    db = l1 ++ c :: l2 /\ id c = ident /\
    ~ In ident (map id l1) /\ ~ In ident (map id l2).
Proof.
  unfold query_get.
  induction db as [|o db IH]; simpl; [discriminate|].
  intros Hnd Hf. inversion Hnd as [|x l Hx Hnd']; subst.
  destruct (id o =? ident) eqn:E.
  - apply Z.eqb_eq in E. injection Hf as ->.
    exists [], db. simpl. repeat split; auto. congruence.
  - apply Z.eqb_neq in E.
    destruct (IH Hnd' Hf) as (l1 & l2 & -> & Hid & H1 & H2).
    exists (o :: l1), l2. simpl. repeat split; auto. tauto.
Qed.

Lemma others_of_absent (ident : Z) (l : store) :
  ~ In ident (map id l) -> others_of ident l = l.
Proof.
  unfold others_of. induction l as [|o l IH]; simpl; [reflexivity|].
  intros H. destruct (id o =? ident) eqn:E; simpl.
  - apply Z.eqb_eq in E. tauto.
  - f_equal. apply IH. tauto.
Qed.

Lemma others_of_split (l1 l2 : store) (c : Customer) :
  ~ In (id c) (map id l1) -> ~ In (id c) (map id l2) ->
  others_of (id c) (l1 ++ c :: l2) = l1 ++ l2.
Proof.
  intros H1 H2. unfold others_of. rewrite filter_app. simpl.
  rewrite Z.eqb_refl. simpl.
  fold (others_of (id c) l1). fold (others_of (id c) l2).
  now rewrite !others_of_absent.
Qed.

Lemma replace_row_absent (c : Customer) (l : store) :
  ~ In (id c) (map id l) -> replace_row c l = l.
Proof.
  unfold replace_row. induction l as [|o l IH]; simpl; [reflexivity|].
  intros H. destruct (id o =? id c) eqn:E.
  - apply Z.eqb_eq in E. tauto.
  - f_equal. apply IH. tauto.
Qed.

Lemma replace_row_split (l1 l2 : store) (c c' : Customer) :
  id c' = id c ->
  ~ In (id c) (map id l1) -> ~ In (id c) (map id l2) ->
  replace_row c' (l1 ++ c :: l2) = l1 ++ c' :: l2.
Proof.
  intros E H1 H2. unfold replace_row. rewrite map_app. simpl.
  replace (id c =? id c') with true by (symmetry; apply Z.eqb_eq; congruence).
  fold (replace_row c' l1). fold (replace_row c' l2).
  rewrite !replace_row_absent by (rewrite E; assumption).
  reflexivity.
Qed.

Lemma first_filter_None (f : Customer -> bool) (db : store) :
  first (filter f db) = None <-> forall o, In o db -> f o = false.
Proof.
  unfold first. induction db as [|c db IH]; simpl.
  - split; [intros _ o [] | reflexivity].
  - destruct (f c) eqn:E; simpl.
    + split; [discriminate|]. intros H. specialize (H c (or_introl eq_refl)). congruence.
    + rewrite IH. split.
      * intros H o [<-|Ho]; auto.
      * intros H o Ho. apply H. now right.
Qed.

Lemma first_filter_Some (f : Customer -> bool) (db : store) (c : Customer) :
  In c db -> f c = true -> exists o, first (filter f db) = Some o.
Proof.
  intros Hin Hf.
  destruct (first (filter f db)) as [o|] eqn:E; [now exists o|].
  rewrite first_filter_None in E. specialize (E c Hin). congruence.
Qed.

Lemma existsb_false (f : Customer -> bool) (db : store) :
  existsb f db = false <-> forall o, In o db -> f o = false.
Proof.
  induction db as [|c db IH]; simpl.
  - split; [intros _ o [] | reflexivity].
  - rewrite orb_false_iff, IH. split.
    + intros [H1 H2] o [<-|Ho]; auto.
    + intros H. split; [apply H; now left | intros o Ho; apply H; now right].
Qed.

(** The unique index accepts an email that no other row carries. *)
Lemma check_unique_fresh (c : Customer) (others : store) :
  ~ In (email c) (map email others) -> check_unique c others = Ok tt.
Proof.
  intros H. unfold check_unique.
  replace (existsb _ others) with false; [reflexivity|].
  symmetry. apply existsb_false. intros o Ho.
  destruct (text_eqb (email o) (email c)) eqn:E; [|reflexivity].
  exfalso. apply H. apply in_map_iff. exists o. split; [|assumption].
  destruct (email o) as [x|], (email c) as [y|]; simpl in E; try discriminate.
  apply String.eqb_eq in E. congruence.
Qed.

(** It refuses an email that another row carries. *)
Lemma check_unique_taken (c o : Customer) (others : store) (e : string) :
  In o others -> email o = Some e -> email c = Some e ->
  check_unique c others = Raise (IntegrityError_unique "customer.email").
Proof.
  intros Hin Ho Hc. unfold check_unique.
  replace (existsb _ others) with true; [reflexivity|].
  symmetry. apply existsb_exists. exists o. split; [assumption|].
  rewrite Ho, Hc. simpl. apply String.eqb_refl.
Qed.

Lemma check_not_null_ok (c : Customer) :
  row_not_null c -> check_not_null c = Ok tt.
Proof.
  intros [Hn He]. unfold check_not_null.
  destruct (name c), (email c); congruence.
Qed.

(** ** The three outcomes of a create request *)

Lemma create_customer_invalid (now : datetime) (data : payload) (db : store) :
  truthy (get (p_name data)) = false \/ truthy (get (p_email data)) = false ->
  create_customer now data db =
    (mkResponse 400 (BError "Name and email are required"), db).
Proof.
  intros H. unfold create_customer, create_customer_try.
  replace (negb (truthy (get (p_name data))) || negb (truthy (get (p_email data))))
    with true; [reflexivity|].
  symmetry. apply orb_true_iff. rewrite !negb_true_iff. exact H.
Qed.

Lemma create_customer_duplicate (now : datetime) (data : payload) (db : store)
  (n e : string) (c : Customer) :
  p_name data = Val n -> n <> "" ->
  p_email data = Val e -> e <> "" ->
  In c db -> email c = Some e ->
  create_customer now data db =
    (mkResponse 400 (BError "Email already exists"), db).
Proof.
  intros Hn Hn' He He' Hin Hc.
  unfold create_customer, create_customer_try. rewrite Hn, He. simpl.
  apply String.eqb_neq in Hn', He'. rewrite Hn', He'. simpl.
  destruct (first_filter_Some (fun o => text_eqb (email o) (Some e)) db c Hin)
    as [o Ho]; [now apply text_eqb_Some|].
  rewrite Ho. reflexivity.
Qed.

Lemma int64_0 : int64 0 = true.
Proof. reflexivity. Qed.

Lemma bind_int_created (now : datetime) (data : payload) (db : store)
  (n e : string) :
  counter_fits data ->
  bind_int (total_orders (flush_new now (create_args data n e) db)) = Ok tt.
Proof.
  intros Hfit. simpl. unfold counter_fits in Hfit.
  destruct (p_totalOrders data) as [| |k]; simpl; try reflexivity.
  now rewrite (Hfit k eq_refl).
Qed.

Lemma create_customer_fresh (now : datetime) (data : payload) (db : store)
  (n e : string) :
  p_name data = Val n -> n <> "" ->
  p_email data = Val e -> e <> "" ->
  ~ In (Some e) (map email db) ->
  counter_fits data ->
  let row := flush_new now (create_args data n e) db in
  create_customer now data db =
    (mkResponse 201 (BCustomer (to_dict row)), db ++ [row]).
Proof.
  intros Hn Hn' He He' Hfresh Hfit row.
  unfold create_customer, create_customer_try. rewrite Hn, He. simpl.
  apply String.eqb_neq in Hn', He'. rewrite Hn', He'. simpl.
  replace (first _) with (@None Customer).
  2:{ symmetry. apply first_filter_None. intros o Ho.
      destruct (text_eqb (email o) (Some e)) eqn:E; [|reflexivity].
      apply text_eqb_Some in E. exfalso. apply Hfresh.
      apply in_map_iff. now exists o. }
  fold (create_args data n e).
  unfold session_add. fold row. unfold row at 1.
  rewrite bind_int_created by assumption. cbn [bind].
  rewrite check_not_null_ok by (split; discriminate).
  cbn [bind]. rewrite check_unique_fresh by exact Hfresh.
  reflexivity.
Qed.

Lemma text_dec (a b : option string) : {a = b} + {a <> b}.
Proof. decide equality. apply string_dec. Defined.

(** A counter the store cannot hold fails the INSERT before anything is
    written. *)
Lemma create_customer_overflow (now : datetime) (data : payload) (db : store)
  (n e : string) (k : Z) :
  p_name data = Val n -> n <> "" ->
  p_email data = Val e -> e <> "" ->
  ~ In (Some e) (map email db) ->
  p_totalOrders data = Val k -> int64 k = false ->
  create_customer now data db = (mkResponse 500 (BException OverflowError), db).
Proof.
  intros Hn Hn' He He' Hfresh Hk Hbig.
  unfold create_customer, create_customer_try. rewrite Hn, He. simpl.
  apply String.eqb_neq in Hn', He'. rewrite Hn', He'. simpl.
  replace (first _) with (@None Customer).
  2:{ symmetry. apply first_filter_None. intros o Ho.
      destruct (text_eqb (email o) (Some e)) eqn:E; [|reflexivity].
      apply text_eqb_Some in E. exfalso. apply Hfresh.
      apply in_map_iff. now exists o. }
  unfold session_add. simpl. rewrite Hk. simpl. rewrite Hbig. reflexivity.
Qed.

Lemma counter_fits_dec (data : payload) :
  counter_fits data \/ exists k, p_totalOrders data = Val k /\ int64 k = false.
Proof.
  unfold counter_fits. destruct (p_totalOrders data) as [| |k].
  - left. discriminate.
  - left. discriminate.
  - destruct (int64 k) eqn:E.
    + left. intros k' H. injection H as <-. exact E.
    + right. now exists k.
Qed.

(** Every create request falls in one of the three cases. *)
Lemma create_customer_cases (now : datetime) (data : payload) (db : store) :
  (truthy (get (p_name data)) = false \/ truthy (get (p_email data)) = false) \/
  exists n e, p_name data = Val n /\ n <> "" /\ p_email data = Val e /\ e <> "" /\
    ((exists c, In c db /\ email c = Some e) \/ ~ In (Some e) (map email db)).
Proof.
  destruct (truthy (get (p_name data))) eqn:Hn; [|now left; left].
  destruct (truthy (get (p_email data))) eqn:He; [|now left; right].
  right. apply truthy_true in Hn, He.
  destruct Hn as (n & En & Hn), He as (e & Ee & He).
  exists n, e.
  assert (p_name data = Val n) by (destruct (p_name data); simpl in En; congruence).
  assert (p_email data = Val e) by (destruct (p_email data); simpl in Ee; congruence).
  repeat split; auto.
  destruct (in_dec text_dec (Some e) (map email db)) as [Hin|Hout].
  - left. apply in_map_iff in Hin. destruct Hin as (c & E & Hc). now exists c.
  - now right.
Qed.

(** ** The outcomes of an update and of a delete request *)

(** The answer of an update, case by case. *)
Lemma update_customer_eq (customer_id : Z) (data : payload) (db : store) :
  update_customer customer_id data db =
    match query_get customer_id db with
    | None =>
        (mkResponse 500
           (BException (if int64 customer_id then NotFound else OverflowError)), db)
    | Some c =>
        let c' := assign_fields data c in
        match bind_changed c c' with
        | Raise e => (mkResponse 500 (BException e), db)
        | Ok _ =>
            match check_not_null c' with
            | Raise e => (mkResponse 500 (BException e), db)
            | Ok _ =>
                match check_unique c' (others_of customer_id db) with
                | Raise e => (mkResponse 500 (BException e), db)
                | Ok _ =>
                    (mkResponse 200 (BCustomer (to_dict c')), replace_row c' db)
                end
            end
        end
    end.
Proof.
  unfold update_customer, update_customer_try, get_or_404.
  destruct (query_get customer_id db) as [c|] eqn:Hget; cbn [bind].
  2:{ destruct (int64 customer_id); reflexivity. }
  apply query_get_Some in Hget. destruct Hget as [_ <-].
  unfold session_update. cbn zeta.
  destruct (bind_changed c (assign_fields data c)) as [[]|x]; cbn [bind];
    [|reflexivity].
  destruct (check_not_null (assign_fields data c)) as [[]|x]; cbn [bind];
    [|reflexivity].
  change (id (assign_fields data c)) with (id c).
  destruct (check_unique (assign_fields data c) (others_of (id c) db)) as [[]|x];
    reflexivity.
Qed.

Lemma update_customer_missing (customer_id : Z) (data : payload) (db : store) :
  query_get customer_id db = None ->
  update_customer customer_id data db =
    (mkResponse 500
       (BException (if int64 customer_id then NotFound else OverflowError)), db).
Proof.
  intros H. rewrite update_customer_eq, H. reflexivity.
Qed.

Lemma delete_customer_missing (customer_id : Z) (db : store) :
  query_get customer_id db = None ->
  delete_customer customer_id db =
    (mkResponse 500
       (BException (if int64 customer_id then NotFound else OverflowError)), db).
Proof.
  intros H. unfold delete_customer, delete_customer_try, get_or_404.
  rewrite H. destruct (int64 customer_id); reflexivity.
Qed.

Lemma delete_customer_found (customer_id : Z) (db : store) (c : Customer) :
  query_get customer_id db = Some c ->
  delete_customer customer_id db =
    (mkResponse 204 BEmpty, others_of customer_id db).
Proof.
  intros H. unfold delete_customer, delete_customer_try, get_or_404.
  rewrite H. simpl. unfold session_delete.
  apply query_get_Some in H. destruct H as [_ ->]. reflexivity.
Qed.

Lemma assign_fields_not_null (data : payload) (c : Customer) :
  row_not_null c -> p_name data <> Null -> p_email data <> Null ->
  row_not_null (assign_fields data c).
Proof.
  intros [Hn He] Pn Pe. split; simpl.
  - destruct (p_name data); simpl; congruence.
  - destruct (p_email data); simpl; congruence.
Qed.

Lemma in_others_of (ident : Z) (db : store) (o : Customer) :
  In o (others_of ident db) <-> In o db /\ id o <> ident.
Proof.
  unfold others_of. rewrite filter_In, negb_true_iff, Z.eqb_neq. tauto.
Qed.

Lemma same_int_refl (v : option Z) : same_int v v = true.
Proof. destruct v; simpl; [apply Z.eqb_refl|reflexivity]. Qed.

Lemma bind_changed_fits (data : payload) (c : Customer) :
  counter_fits data -> bind_changed c (assign_fields data c) = Ok tt.
Proof.
  intros Hfit. unfold bind_changed. simpl.
  destruct (p_totalOrders data) as [| |k] eqn:E; simpl.
  - now rewrite same_int_refl.
  - now destruct (same_int (total_orders c) None).
  - rewrite (Hfit k E). now destruct (same_int (total_orders c) (Some k)).
Qed.

Lemma update_customer_accepted (customer_id : Z) (data : payload) (db : store)
  (c : Customer) :
  store_ok db -> query_get customer_id db = Some c ->
  acceptable customer_id data db ->
  update_customer customer_id data db =
    (mkResponse 200 (BCustomer (to_dict (assign_fields data c))),
     replace_row (assign_fields data c) db).
Proof.
  intros Hok Hget (Pn & Pe & Pu & Pf).
  rewrite update_customer_eq, Hget. cbn zeta.
  rewrite bind_changed_fits by assumption.
  destruct (query_get_Some _ _ _ Hget) as [Hin Hid].
  assert (Hc : row_not_null c).
  { pose proof (ok_not_null _ Hok) as HF. rewrite Forall_forall in HF. auto. }
  rewrite check_not_null_ok by (apply assign_fields_not_null; assumption).
  rewrite check_unique_fresh; [reflexivity|].
  rewrite in_map_iff. intros (o & Eo & Ho).
  apply in_others_of in Ho. destruct Ho as [Ho Hne].
  simpl in Eo. destruct (p_email data) as [| |e] eqn:Ee; simpl in Eo.
  - (* the email is kept: another row with it contradicts the unique index *)
    destruct (split_at_id _ _ _ (ok_ids _ Hok) Hget) as (l1 & l2 & -> & _ & H1 & H2).
    pose proof (ok_emails _ Hok) as Hnd. rewrite map_app in Hnd. simpl in Hnd.
    apply NoDup_remove_2 in Hnd. apply Hnd. rewrite <- map_app.
    apply in_map_iff. exists o. split; [assumption|].
    apply in_app_iff. apply in_app_iff in Ho. simpl in Ho.
    destruct Ho as [Ho|[Ho|Ho]]; auto. subst o. congruence.
  - congruence.
  - exact (Pu e o eq_refl Ho Hne Eo).
Qed.


(** With nothing else wrong, it is the NOT NULL constraint that answers. *)
Lemma update_customer_null_name (customer_id : Z) (data : payload) (db : store)
  (c : Customer) :
  query_get customer_id db = Some c ->
  p_name data = Null -> counter_fits data ->
  update_customer customer_id data db =
    (mkResponse 500 (BException (IntegrityError_not_null "customer.name")), db).
Proof.
  intros Hget H Hfit. rewrite update_customer_eq, Hget. cbn zeta.
  rewrite bind_changed_fits by assumption.
  unfold check_not_null. simpl. now rewrite H.
Qed.

(** An email that another row carries is refused by the unique index,
    unless the statement already failed. *)
Lemma update_customer_taken (customer_id : Z) (data : payload) (db : store)
  (c o : Customer) (e : string) :
  query_get customer_id db = Some c ->
  p_email data = Val e -> In o db -> id o <> customer_id -> email o = Some e ->
  code (fst (update_customer customer_id data db)) = 500 /\
  snd (update_customer customer_id data db) = db.
Proof.
  intros Hget He Hin Hne Ho. rewrite update_customer_eq, Hget. cbn zeta.
  destruct (bind_changed c (assign_fields data c)) as [[]|x]; [|now split].
  destruct (check_not_null (assign_fields data c)) as [[]|x]; [|now split].
  rewrite (check_unique_taken _ o _ e); [now split| |assumption|].
  - apply in_others_of. auto.
  - simpl. now rewrite He.
Qed.

(** ** The store after a request *)

Lemma create_customer_store (now : datetime) (data : payload) (db : store) :
  snd (create_customer now data db) = db \/
  exists n e,
    ~ In (Some e) (map email db) /\
    snd (create_customer now data db) =
      db ++ [flush_new now (create_args data n e) db].
Proof.
  destruct (create_customer_cases now data db)
    as [H|(n & e & Hn & Hn' & He & He' & [(c & Hin & Hc)|Hfresh])].
  - left. now rewrite create_customer_invalid.
  - left. now rewrite (create_customer_duplicate now data db n e c).
  - destruct (counter_fits_dec data) as [Hfit|(k & Hk & Hbig)].
    + right. exists n, e. split; [assumption|].
      now rewrite (create_customer_fresh now data db n e).
    + left. now rewrite (create_customer_overflow now data db n e k).
Qed.

Lemma check_not_null_inv (c : Customer) :
  check_not_null c = Ok tt -> row_not_null c.
Proof.
  unfold check_not_null, row_not_null.
  destruct (name c), (email c); intros H; try discriminate; split; discriminate.
Qed.

Lemma check_unique_inv (c : Customer) (others : store) :
  check_unique c others = Ok tt -> email c <> None ->
  ~ In (email c) (map email others).
Proof.
  unfold check_unique. intros H Hc Hin.
  destruct (existsb _ others) eqn:E; [discriminate|].
  apply in_map_iff in Hin. destruct Hin as (o & Eo & Ho).
  rewrite existsb_false in E. specialize (E o Ho). rewrite Eo in E.
  destruct (email c) as [x|]; [|congruence].
  simpl in E. now rewrite String.eqb_refl in E.
Qed.

Lemma update_customer_store (customer_id : Z) (data : payload) (db : store) :
  snd (update_customer customer_id data db) = db \/
  exists c,
    query_get customer_id db = Some c /\
    row_not_null (assign_fields data c) /\
    ~ In (email (assign_fields data c)) (map email (others_of customer_id db)) /\
    snd (update_customer customer_id data db) = replace_row (assign_fields data c) db.
Proof.
  rewrite update_customer_eq.
  destruct (query_get customer_id db) as [c|] eqn:Hget; [|now left]. cbn zeta.
  destruct (bind_changed c (assign_fields data c)) as [[]|x]; [|now left].
  destruct (check_not_null (assign_fields data c)) as [[]|x] eqn:Hnn; [|now left].
  destruct (check_unique _ _) as [[]|x] eqn:Hu; [|now left].
  right. exists c. apply check_not_null_inv in Hnn.
  split; [reflexivity|]. split; [exact Hnn|]. split; [|reflexivity].
  apply (check_unique_inv (assign_fields data c)); [exact Hu|apply Hnn].
Qed.

Lemma delete_customer_store (customer_id : Z) (db : store) :
  snd (delete_customer customer_id db) = others_of customer_id db.
Proof.
  destruct (query_get customer_id db) as [c|] eqn:Hget.
  - now rewrite (delete_customer_found _ _ c).
  - rewrite delete_customer_missing by assumption. cbn [snd].
    symmetry. apply others_of_absent. now apply query_get_None.
Qed.

Lemma main_seed_empty (now : datetime) : main_seed now [] = Ok (seed_rows now).
Proof. reflexivity. Qed.

Lemma seeded_rows (now : datetime) (db : store) :
  seeded now db -> db = seed_rows now.
Proof. unfold seeded. rewrite main_seed_empty. congruence. Qed.

(** ** The constraints hold in every reachable state *)

Lemma NoDup_snoc {A : Type} (l : list A) (a : A) :
  NoDup l -> ~ In a l -> NoDup (l ++ [a]).
Proof.
  intros Hl Ha. apply (NoDup_Add (Add_app a l [])).
  rewrite app_nil_r. auto.
Qed.

Lemma map_id_replace_row (c : Customer) (db : store) :
  map id (replace_row c db) = map id db.
Proof.
  unfold replace_row. induction db as [|o db IH]; simpl; [reflexivity|].
  rewrite IH. destruct (id o =? id c) eqn:E; [|reflexivity].
  apply Z.eqb_eq in E. now rewrite E.
Qed.

Lemma Forall_replace_row (P : Customer -> Prop) (c : Customer) (db : store) :
  Forall P db -> P c -> Forall P (replace_row c db).
Proof.
  intros H Hc. unfold replace_row. induction H; simpl; constructor; auto.
  destruct (id x =? id c); assumption.
Qed.

Lemma Forall_others_of (P : Customer -> Prop) (ident : Z) (db : store) :
  Forall P db -> Forall P (others_of ident db).
Proof.
  rewrite !Forall_forall. intros H o Ho. apply in_others_of in Ho. apply H, Ho.
Qed.

Lemma store_ok_seed (now : datetime) : store_ok (seed_rows now).
Proof.
  split; unfold seed_rows; simpl.
  - repeat constructor; simpl; intuition lia.
  - repeat constructor; simpl; intuition discriminate.
  - repeat constructor; simpl; discriminate.
Qed.

Lemma store_ok_create (now : datetime) (data : payload) (db : store) :
  store_ok db -> store_ok (snd (create_customer now data db)).
Proof.
  intros Hok.
  destruct (create_customer_store now data db) as [->|(n & e & Hfresh & ->)];
    [assumption|].
  destruct Hok as [Hi He Hn]. split.
  - rewrite map_app. simpl. apply NoDup_snoc; [assumption|apply next_id_fresh].
  - rewrite map_app. simpl. now apply NoDup_snoc.
  - apply Forall_app. split; [assumption|].
    constructor; [|constructor]. split; discriminate.
Qed.

Lemma store_ok_update (customer_id : Z) (data : payload) (db : store) :
  store_ok db -> store_ok (snd (update_customer customer_id data db)).
Proof.
  intros Hok.
  destruct (update_customer_store customer_id data db)
    as [->|(c & Hget & Hnn & Hu & ->)]; [assumption|].
  destruct Hok as [Hi He Hn]. split.
  - now rewrite map_id_replace_row.
  - destruct (split_at_id _ _ _ Hi Hget) as (l1 & l2 & -> & Hid & H1 & H2).
    rewrite <- Hid in Hu, H1, H2.
    rewrite others_of_split in Hu by assumption.
    rewrite (replace_row_split l1 l2 c) by (auto; reflexivity).
    rewrite map_app in *. simpl in *.
    apply (NoDup_Add (Add_app _ _ _)). split; [|assumption].
    now apply NoDup_remove_1 in He.
  - now apply Forall_replace_row.
Qed.

Lemma NoDup_map_others_of {B : Type} (f : Customer -> B) (ident : Z) (db : store) :
  NoDup (map f db) -> NoDup (map f (others_of ident db)).
Proof.
  unfold others_of. induction db as [|o db IH]; simpl; [auto|].
  intros H. inversion H as [|x l Hx Hl]; subst.
  destruct (negb (id o =? ident)); simpl; [|auto].
  constructor; [|auto]. intros Hin. apply Hx.
  apply in_map_iff in Hin. destruct Hin as (o' & E & Ho').
  apply filter_In in Ho'. apply in_map_iff. exists o'. tauto.
Qed.

Lemma store_ok_delete (customer_id : Z) (db : store) :
  store_ok db -> store_ok (snd (delete_customer customer_id db)).
Proof.
  intros [Hi He Hn]. rewrite delete_customer_store. split.
  - now apply NoDup_map_others_of.
  - now apply NoDup_map_others_of.
  - now apply Forall_others_of.
Qed.

Lemma reachable_by_store_ok (P : payload -> Prop) (db : store) :
  reachable_by P db -> store_ok db.
Proof.
  induction 1 as [|now db Hs|now data db _ IH _|cid data db _ IH _|cid db _ IH].
  - split; simpl; constructor.
  - apply seeded_rows in Hs. subst db. apply store_ok_seed.
  - now apply store_ok_create.
  - now apply store_ok_update.
  - now apply store_ok_delete.
Qed.

(** ** Statistics: the queries against the reference sums *)

Lemma or_zero_Z_value (v : option Z) : or_zero_Z v = value_or_zero_Z v.
Proof.
  destruct v as [z|]; simpl; [|reflexivity].
  destruct (z =? 0) eqn:E; [|reflexivity].
  apply Z.eqb_eq in E. now rewrite E.
Qed.

Lemma not_null_amounts (db : store) : not_null (map total_spent db) = amounts db.
Proof.
  induction db as [|c db IH]; simpl; [reflexivity|].
  destruct (total_spent c); now rewrite IH.
Qed.

Lemma total_revenue_sum (ar : arith) (db : store) :
  (or_zero_Q (sql_sum_real ar (map total_spent db)) ==
   match amounts db with
   | [] => 0
   | vs => real_sum ar vs
   end)%Q.
Proof.
  unfold sql_sum_real. rewrite not_null_amounts.
  destruct (amounts db) as [|q vs]; simpl; [reflexivity|].
  destruct (Qeq_bool (real_sum ar (q :: vs)) 0) eqn:E; [|reflexivity].
  apply Qeq_bool_eq in E. now rewrite E.
Qed.

(** While every partial sum stays in the 64-bit range, the integer SUM is
    the sum of the counters. *)
Lemma sql_sum_int_acc (db : store) (acc : option Z) :
  (forall k, int64 (value_or_zero_Z acc + sum_orders (firstn k db)) = true) ->
  exists v,
    fold_left sum_int_step (map total_orders db) (Ok acc) = Ok v /\
    value_or_zero_Z v = value_or_zero_Z acc + sum_orders db.
Proof.
  revert acc. induction db as [|c db IH]; intros acc H; simpl.
  - exists acc. split; [reflexivity|lia].
  - destruct (total_orders c) as [x|] eqn:Ex; simpl.
    + destruct acc as [y|]; simpl.
      * pose proof (H 1%nat) as H1. simpl in H1. rewrite Ex in H1.
        replace (y + (x + 0)) with (y + x) in H1 by lia. rewrite H1.
        destruct (IH (Some (y + x))) as (v & Hv & Ev).
        { intros k. specialize (H (S k)). simpl in H. rewrite Ex in H.
          simpl. now replace (y + x + sum_orders (firstn k db))
            with (y + (x + sum_orders (firstn k db))) by lia. }
        exists v. split; [exact Hv|]. rewrite Ev. simpl. lia.
      * destruct (IH (Some x)) as (v & Hv & Ev).
        { intros k. specialize (H (S k)). simpl in H. rewrite Ex in H.
          exact H. }
        exists v. split; [exact Hv|]. rewrite Ev. simpl. lia.
    + destruct (IH acc) as (v & Hv & Ev).
      { intros k. specialize (H (S k)). simpl in H. now rewrite Ex in H. }
      exists v. split; [exact Hv|exact Ev].
Qed.

Lemma total_orders_sum (db : store) :
  (forall k, int64 (sum_orders (firstn k db)) = true) ->
  exists v,
    sql_sum_int (map total_orders db) = Ok v /\ or_zero_Z v = sum_orders db.
Proof.
  intros H. destruct (sql_sum_int_acc db None H) as (v & Hv & Ev).
  exists v. split; [exact Hv|]. now rewrite or_zero_Z_value, Ev.
Qed.

Lemma active_count (db : store) :
  List.length (filter_by_status "active" db) = count_active db.
Proof.
  unfold filter_by_status. induction db as [|c db IH]; simpl; [reflexivity|].
  destruct (status c) as [s|]; simpl; [|exact IH].
  destruct (string_dec s "active") as [->|Hne].
  - simpl. now rewrite IH.
  - apply String.eqb_neq in Hne. now rewrite Hne.
Qed.

(** ** Counters and amounts under payloads that are not below zero *)

Lemma nonneg_seed (now : datetime) : Forall nonneg_row (seed_rows now).
Proof.
  unfold seed_rows.
  repeat constructor; simpl; eexists; (split; [reflexivity|]);
    try lia; unfold Qle; simpl; lia.
Qed.

Lemma nonneg_created (now : datetime) (data : payload) (db : store) (n e : string) :
  nonneg_payload data -> nonneg_row (flush_new now (create_args data n e) db).
Proof.
  intros [Ho Hs]. split; simpl.
  - destruct (p_totalOrders data) as [| |z]; simpl in *;
      [exists 0; split; [reflexivity|lia] | contradiction | now exists z].
  - destruct (p_totalSpent data) as [| |q]; simpl in *;
      [exists 0%Q; split; [reflexivity|apply Qle_refl] | contradiction | now exists q].
Qed.

Lemma nonneg_assigned (data : payload) (c : Customer) :
  nonneg_payload data -> nonneg_row c -> nonneg_row (assign_fields data c).
Proof.
  intros [Ho Hs] [Hc1 Hc2]. split; simpl.
  - destruct (p_totalOrders data) as [| |z]; simpl in *;
      [assumption | contradiction | now exists z].
  - destruct (p_totalSpent data) as [| |q]; simpl in *;
      [assumption | contradiction | now exists q].
Qed.

Lemma nonneg_reachable (db : store) :
  reachable_by nonneg_payload db -> Forall nonneg_row db.
Proof.
  induction 1 as [|now db Hs|now data db _ IH HP|cid data db _ IH HP|cid db _ IH].
  - constructor.
  - apply seeded_rows in Hs. subst db. apply nonneg_seed.
  - destruct (create_customer_store now data db) as [->|(n & e & _ & ->)];
      [assumption|].
    apply Forall_app. split; [assumption|].
    constructor; [now apply nonneg_created|constructor].
  - destruct (update_customer_store cid data db) as [->|(c & Hget & _ & _ & ->)];
      [assumption|].
    apply Forall_replace_row; [assumption|].
    apply nonneg_assigned; [assumption|].
    apply query_get_Some in Hget. rewrite Forall_forall in IH. apply IH, Hget.
  - rewrite delete_customer_store. now apply Forall_others_of.
Qed.

(** * Properties of the operations *)

(** ** Unknown identifiers *)

(** C1. Update and delete of a customer id that has no row.  The claim
    expects 404 from both; [get_or_404] does raise [NotFound], but inside the
    [try] block, so the [except Exception] clause answers 500 with the text
    of the exception ([OverflowError] in place of [NotFound] for an id the
    store cannot hold).  The store is unchanged, as the claim says. *)
Theorem missing_id_answers_500 (customer_id : Z) (data : payload) (db : store) :
  query_get customer_id db = None ->
  update_customer customer_id data db =
    (mkResponse 500
       (BException (if int64 customer_id then NotFound else OverflowError)), db) /\
  delete_customer customer_id db =
    (mkResponse 500
       (BException (if int64 customer_id then NotFound else OverflowError)), db).
Proof.
  intros H. split.
  - now apply update_customer_missing.
  - now apply delete_customer_missing.
Qed.

Lemma missing_id_answers_500_witness :
  query_get 1 [] = None /\
  update_customer 1 no_fields [] = (mkResponse 500 (BException NotFound), []) /\
  delete_customer 1 [] = (mkResponse 500 (BException NotFound), []).
Proof.
  split; [reflexivity|].
  apply (missing_id_answers_500 1 no_fields []). reflexivity.
Defined.

(** ** Create *)

(** C2, as stated, fails: a request that repeats a stored email but has no
    name is answered by the validation message, not by the conflict
    message. *)
Lemma create_duplicate_email_counterexample :
  let db := seed_rows 0 in
  let data := mkPayload Absent (Val "john@example.com") Absent Absent Absent in
  (exists c, In c db /\ email c = Some "john@example.com") /\
  create_customer 0 data db =
    (mkResponse 400 (BError "Name and email are required"), db) /\
  fst (create_customer 0 data db) <> mkResponse 400 (BError "Email already exists").
Proof.
  simpl. split; [|split].
  - eexists. split; [left; reflexivity|reflexivity].
  - reflexivity.
  - discriminate.
Qed.

(** C2, amended.  When the request carries a non-empty name and a non-empty
    email and a stored customer has that email, create answers 400 with
    [{error: "Email already exists"}] and the store is unchanged. *)
Theorem create_duplicate_email (now : datetime) (data : payload) (db : store)
  (n e : string) (c : Customer) :
  p_name data = Val n -> n <> "" ->
  p_email data = Val e -> e <> "" ->
  In c db -> email c = Some e ->
  create_customer now data db =
    (mkResponse 400 (BError "Email already exists"), db).
Proof. apply create_customer_duplicate. Qed.

Lemma create_duplicate_email_witness :
  let db := seed_rows 0 in
  let data := mkPayload (Val "Johnny") (Val "john@example.com") Absent Absent Absent in
  create_customer 7 data db = (mkResponse 400 (BError "Email already exists"), db).
Proof.
  simpl.
  apply (create_duplicate_email 7 _ (seed_rows 0) "Johnny" "john@example.com"
           (mkCustomer 1 (Some "John Doe") (Some "john@example.com") (Some "active")
              (Some 15) (Some 2850.50%Q) 0)).
  - reflexivity.
  - discriminate.
  - reflexivity.
  - discriminate.
  - left. reflexivity.
  - reflexivity.
Defined.

(** C3.  A create request whose name or email is absent, null or the empty
    text is answered 400 with [{error: "Name and email are required"}], and
    the store is unchanged. *)
Theorem create_missing_field (now : datetime) (data : payload) (db : store) :
  missing_or_empty (p_name data) \/ missing_or_empty (p_email data) ->
  create_customer now data db =
    (mkResponse 400 (BError "Name and email are required"), db).
Proof.
  intros H. apply create_customer_invalid.
  destruct H as [[H|[H|H]]|[H|[H|H]]]; rewrite H; simpl; auto.
Qed.

Lemma create_missing_field_witness :
  let data := mkPayload (Val "") (Val "new@example.com") Absent Absent Absent in
  missing_or_empty (p_name data) /\
  create_customer 7 data (seed_rows 0) =
    (mkResponse 400 (BError "Name and email are required"), seed_rows 0).
Proof.
  simpl. split.
  - right. right. reflexivity.
  - apply (create_missing_field 7 _ (seed_rows 0)). left. right. right. reflexivity.
Defined.




(** ** Update *)







(** ** Delete and list *)

(** C8.  In a table with distinct primary keys, delete of an existing
    customer id answers 204 with an empty body and removes that row and no
    other: the list operation, which answered
    the rows before, the customer, and the rows after, now answers the rows
    before followed by the rows after, and none of them has that id. *)
Theorem delete_existing (customer_id : Z) (db : store) (c : Customer) :
  NoDup (map id db) -> query_get customer_id db = Some c ->
  exists l1 l2,
    db = l1 ++ c :: l2 /\
    delete_customer customer_id db = (mkResponse 204 BEmpty, l1 ++ l2) /\
    get_customers db =
      mkResponse 200 (BCustomers (map to_dict l1 ++ to_dict c :: map to_dict l2)) /\
    get_customers (snd (delete_customer customer_id db)) =
      mkResponse 200 (BCustomers (map to_dict l1 ++ map to_dict l2)) /\
    ~ In customer_id (map id (l1 ++ l2)).
Proof.
  intros Hids Hget.
  destruct (split_at_id _ _ _ Hids Hget) as (l1 & l2 & E & Hid & H1 & H2).
  exists l1, l2.
  assert (Hdel : delete_customer customer_id db = (mkResponse 204 BEmpty, l1 ++ l2)).
  { rewrite (delete_customer_found _ _ c Hget). f_equal.
    rewrite E, <- Hid. apply others_of_split; rewrite Hid; assumption. }
  split; [exact E|]. split; [exact Hdel|]. split; [|split].
  - rewrite E. unfold get_customers. now rewrite map_app.
  - rewrite Hdel. unfold get_customers. simpl. now rewrite map_app.
  - rewrite map_app, in_app_iff. tauto.
Qed.

Lemma delete_existing_witness :
  let c := mkCustomer 3 (Some "Bob Johnson") (Some "bob@example.com") (Some "inactive")
             (Some 3) (Some 450.75%Q) 0 in
  exists l1 l2,
    seed_rows 0 = l1 ++ c :: l2 /\
    delete_customer 3 (seed_rows 0) = (mkResponse 204 BEmpty, l1 ++ l2) /\
    get_customers (seed_rows 0) =
      mkResponse 200 (BCustomers (map to_dict l1 ++ to_dict c :: map to_dict l2)) /\
    get_customers (snd (delete_customer 3 (seed_rows 0))) =
      mkResponse 200 (BCustomers (map to_dict l1 ++ map to_dict l2)) /\
    ~ In 3 (map id (l1 ++ l2)).
Proof.
  apply (delete_existing 3 (seed_rows 0)).
  - exact (ok_ids _ (store_ok_seed 0)).
  - reflexivity.
Defined.

(** ** Statistics *)

(** C6, as stated, fails: after two creates with totalOrders 2^62 the sum
    of the counters leaves the 64-bit range, the SUM of the store fails with
    "integer overflow", and the stats operation answers 500 instead of the
    four numbers. *)
Lemma get_stats_counterexample :
  let eve := mkPayload (Val "Eve Adams") (Val "eve@example.com") Absent
               (Val (2 ^ 62)) Absent in
  let dan := mkPayload (Val "Dan Brown") (Val "dan@example.com") Absent
               (Val (2 ^ 62)) Absent in
  let db := snd (create_customer 8 dan (snd (create_customer 7 eve []))) in
  reachable db /\
  map total_orders db = [Some (2 ^ 62); Some (2 ^ 62)] /\
  get_stats db =
    mkResponse 500 (BException (OperationalError "integer overflow")).
Proof.
  cbv zeta. split; [|split].
  - apply reach_create; [|exact I]. apply reach_create; [|exact I].
    apply reach_empty.
  - reflexivity.
  - reflexivity.
Qed.

(** C6, amended.  For every store state in which the partial sums of
    totalOrders, taken in row order, stay in the 64-bit range, and whatever
    the rounding of the arithmetic on amounts, the stats operation answers
    200 with: totalCustomers, the number of rows; activeCustomers, the
    number of rows whose status is exactly "active"; totalRevenue, the SUM
    of the store over the totalSpent values that are not null (0 when there
    is none); avgOrderValue, totalRevenue divided by the sum of totalOrders
    when that sum is above 0, and 0 otherwise, so that no division by zero
    occurs. *)
Theorem get_stats_spec (ar : arith) (db : store) :
  (forall k, int64 (sum_orders (firstn k db)) = true) ->
  exists s,
    get_stats_with ar db = mkResponse 200 (BStats s) /\
    totalCustomers s = Z.of_nat (List.length db) /\
    activeCustomers s = Z.of_nat (count_active db) /\
    (totalRevenue s ==
       match amounts db with
       | [] => 0
       | vs => real_sum ar vs
       end)%Q /\
    avgOrderValue s =
      if 0 <? sum_orders db
      then true_div ar (totalRevenue s) (sum_orders db)
      else 0%Q.
Proof.
  intros H. destruct (total_orders_sum db H) as (v & Hv & Ev).
  unfold get_stats_with, get_stats_try. rewrite Hv. cbn [bind]. rewrite Ev.
  destruct (0 <? sum_orders db) eqn:E.
  - unfold truediv.
    replace (sum_orders db =? 0) with false
      by (symmetry; apply Z.eqb_neq; apply Z.ltb_lt in E; lia).
    cbn [bind]. eexists. split; [reflexivity|]. cbn.
    split; [reflexivity|]. split; [now rewrite active_count|].
    split; [apply total_revenue_sum|reflexivity].
  - cbn [bind]. eexists. split; [reflexivity|]. cbn.
    split; [reflexivity|]. split; [now rewrite active_count|].
    split; [apply total_revenue_sum|reflexivity].
Qed.

Lemma get_stats_spec_witness :
  exists s,
    get_stats_with exact_arith (seed_rows 0) = mkResponse 200 (BStats s) /\
    totalCustomers s = 5 /\
    activeCustomers s = 3 /\
    (totalRevenue s ==
       real_sum exact_arith [2850.50; 1250.00; 450.75; 4200.25; 0.00])%Q /\
    avgOrderValue s = true_div exact_arith (totalRevenue s) 48.
Proof.
  apply (get_stats_spec exact_arith (seed_rows 0)).
  intros k. do 5 (destruct k as [|k]; [reflexivity|]).
  destruct k; reflexivity.
Defined.

(** Over no rows every number of the answer is 0. *)
Lemma get_stats_empty :
  get_stats [] = mkResponse 200 (BStats (mkStats 0 0 0 0)).
Proof. reflexivity. Qed.

(** C7.  The start-up on an empty table writes exactly the five sample
    customers, and the stats operation over them answers totalCustomers 5,
    activeCustomers 3, totalRevenue 8751.50 and avgOrderValue 8751.50/48. *)
Theorem seed_then_stats (now : datetime) :
  exists db s,
    main_seed now [] = Ok db /\
    map (fun c => (name c, email c, status c, total_orders c, total_spent c)) db =
      [ (Some "John Doe", Some "john@example.com", Some "active",
         Some 15, Some 2850.50%Q);
        (Some "Jane Smith", Some "jane@example.com", Some "active",
         Some 8, Some 1250.00%Q);
        (Some "Bob Johnson", Some "bob@example.com", Some "inactive",
         Some 3, Some 450.75%Q);
        (Some "Alice Brown", Some "alice@example.com", Some "active",
         Some 22, Some 4200.25%Q);
        (Some "Charlie Wilson", Some "charlie@example.com", Some "pending",
         Some 0, Some 0.00%Q) ] /\
    get_stats db = mkResponse 200 (BStats s) /\
    totalCustomers s = 5 /\
    activeCustomers s = 3 /\
    (totalRevenue s == 8751.50)%Q /\
    (avgOrderValue s == 8751.50 / 48)%Q.
Proof.
  eexists. eexists. split; [reflexivity|]. split; [reflexivity|].
  split; [reflexivity|]. split; [reflexivity|]. split; [reflexivity|].
  split; reflexivity.
Qed.

(** ** Counters and amounts *)

(** C9, as stated, fails: nothing checks the sign of totalOrders or
    totalSpent, so one create request on the empty store persists a
    customer whose totalOrders is below zero. *)
Lemma nonneg_counterexample :
  let data := mkPayload (Val "Eve Adams") (Val "eve@example.com") Absent
                (Val (-1)) Absent in
  let db := snd (create_customer 0 data []) in
  reachable db /\
  db = [mkCustomer 1 (Some "Eve Adams") (Some "eve@example.com") (Some "active")
          (Some (-1)) (Some 0%Q) 0] /\
  ~ Forall nonneg_row db.
Proof.
  simpl. split; [|split].
  - exact (reach_create (fun _ => True) 0
             (mkPayload (Val "Eve Adams") (Val "eve@example.com") Absent
                (Val (-1)) Absent) [] (reach_empty _) I).
  - reflexivity.
  - intros H. inversion H as [|x l [(n & E & Hn) _] _]; subst.
    simpl in E. injection E as <-. lia.
Qed.

(** C9, amended.  In every store state reached from the empty or the seeded
    store by create, update and delete requests whose payloads bind
    totalOrders and totalSpent, when present, to numbers that are not below
    zero, every persisted customer has a totalOrders and a totalSpent that
    are not below zero. *)
Theorem nonneg_invariant (db : store) :
  reachable_by nonneg_payload db -> Forall nonneg_row db.
Proof. apply nonneg_reachable. Qed.

Lemma nonneg_invariant_witness :
  let data := mkPayload (Val "Eve Adams") (Val "eve@example.com") Absent
                (Val 4) (Val 120.5%Q) in
  Forall nonneg_row (snd (create_customer 7 data (seed_rows 0))).
Proof.
  apply (nonneg_invariant
           (snd (create_customer 7
                   (mkPayload (Val "Eve Adams") (Val "eve@example.com") Absent
                      (Val 4) (Val 120.5%Q))
                   (seed_rows 0)))).
  apply reach_create.
  - apply (reach_seeded _ 0). reflexivity.
  - split; simpl; [lia|]. unfold Qle. simpl. lia.
Defined.

(** * Further properties of the handlers *)

(** ** Helper lemmas on rows written twice *)

Lemma replace_row_twice (c : Customer) (db : store) :
  replace_row c (replace_row c db) = replace_row c db.
Proof.
  unfold replace_row. induction db as [|o db IH]; simpl; [reflexivity|].
  rewrite IH. f_equal.
  destruct (id o =? id c) eqn:E.
  - now rewrite Z.eqb_refl.
  - now rewrite E.
Qed.

Lemma others_of_replace_row (c : Customer) (db : store) :
  others_of (id c) (replace_row c db) = others_of (id c) db.
Proof.
  unfold others_of, replace_row. induction db as [|o db IH]; simpl; [reflexivity|].
  destruct (id o =? id c) eqn:E; simpl.
  - now rewrite Z.eqb_refl.
  - rewrite E. simpl. now rewrite IH.
Qed.

Lemma query_get_replace_row (c c0 : Customer) (db : store) :
  query_get (id c) db = Some c0 -> query_get (id c) (replace_row c db) = Some c.
Proof.
  unfold query_get, replace_row. induction db as [|o db IH]; simpl; [discriminate|].
  destruct (id o =? id c) eqn:E.
  - intros _. now rewrite Z.eqb_refl.
  - intros H. rewrite E. now apply IH.
Qed.

Lemma query_get_others_of (ident : Z) (db : store) :
  query_get ident (others_of ident db) = None.
Proof.
  apply query_get_None. rewrite in_map_iff. intros (o & E & Ho).
  apply in_others_of in Ho. tauto.
Qed.


Lemma get_default_twice {A : Type} (f : field A) (v : option A) :
  get_default f (get_default f v) = get_default f v.
Proof. now destruct f. Qed.

Lemma assign_fields_twice (data : payload) (c : Customer) :
  assign_fields data (assign_fields data c) = assign_fields data c.
Proof.
  unfold assign_fields. simpl. now rewrite !get_default_twice.
Qed.

Lemma assign_no_fields (c : Customer) : assign_fields no_fields c = c.
Proof. now destruct c. Qed.

(** ** The constraints of the table *)

(** X1.  In every state reached from the empty or the seeded store by
    create, update and delete requests, no two customers share an id, no two
    share an email, and every customer has a name and an email that are not
    null. *)
Theorem reachable_constraints (db : store) :
  reachable db ->
  NoDup (map id db) /\ NoDup (map email db) /\
  forall c, In c db -> exists n e, name c = Some n /\ email c = Some e.
Proof.
  intros H. apply reachable_by_store_ok in H. destruct H as [Hi He Hn].
  split; [assumption|]. split; [assumption|].
  intros c Hc. rewrite Forall_forall in Hn. destruct (Hn c Hc) as [H1 H2].
  destruct (name c) as [n|], (email c) as [e|]; try congruence.
  now exists n, e.
Qed.

Lemma reachable_constraints_witness :
  let data := mkPayload (Val "") (Val "jane@example.com") Absent Absent Absent in
  let db := snd (update_customer 1 data (seed_rows 0)) in
  NoDup (map id db) /\ NoDup (map email db) /\
  forall c, In c db -> exists n e, name c = Some n /\ email c = Some e.
Proof.
  apply (reachable_constraints
           (snd (update_customer 1
                   (mkPayload (Val "") (Val "jane@example.com") Absent Absent Absent)
                   (seed_rows 0)))).
  apply reach_update.
  - apply (reach_seeded _ 0). reflexivity.
  - exact I.
Defined.

(** ** Start-up *)

(** X2.  The start-up seeds at most once: on the table a start-up has left,
    another start-up changes nothing. *)
Theorem main_seed_once (now1 now2 : datetime) (db db1 : store) :
  main_seed now1 db = Ok db1 -> main_seed now2 db1 = Ok db1.
Proof.
  destruct db as [|c db].
  - rewrite main_seed_empty. intros H. injection H as <-. reflexivity.
  - unfold main_seed. simpl List.length.
    replace (Z.of_nat (S (List.length db)) =? 0) with false
      by (symmetry; apply Z.eqb_neq; lia).
    intros H. injection H as <-. simpl List.length.
    replace (Z.of_nat (S (List.length db)) =? 0) with false
      by (symmetry; apply Z.eqb_neq; lia).
    reflexivity.
Qed.

Lemma main_seed_once_witness :
  main_seed 0 [] = Ok (seed_rows 0) /\ main_seed 9 (seed_rows 0) = Ok (seed_rows 0).
Proof.
  split; [reflexivity|].
  apply (main_seed_once 0 9 [] (seed_rows 0)). reflexivity.
Defined.

(** ** Requests in sequence *)





(** X5.  After a delete request, accepted or not, no customer has that id:
    a lookup finds nothing, and an update or a second delete of the id (an
    id of the route, not negative and within the 64-bit range) is answered
    500 with the NotFound exception and changes nothing. *)
Theorem delete_then_missing (customer_id : Z) (data : payload) (db : store) :
  0 <= customer_id < 2 ^ 63 ->
  let db' := snd (delete_customer customer_id db) in
  query_get customer_id db' = None /\
  update_customer customer_id data db' = (mkResponse 500 (BException NotFound), db') /\
  delete_customer customer_id db' = (mkResponse 500 (BException NotFound), db').
Proof.
  intros Hid db'. unfold db'. rewrite delete_customer_store.
  pose proof (query_get_others_of customer_id db) as H.
  assert (Hr : int64 customer_id = true).
  { unfold int64. apply andb_true_iff. split; [apply Z.leb_le|apply Z.ltb_lt]; lia. }
  split; [exact H|]. split.
  - rewrite update_customer_missing by assumption. now rewrite Hr.
  - rewrite delete_customer_missing by assumption. now rewrite Hr.
Qed.

Lemma delete_then_missing_witness :
  let db' := snd (delete_customer 2 (seed_rows 0)) in
  query_get 2 db' = None /\
  update_customer 2 no_fields db' = (mkResponse 500 (BException NotFound), db') /\
  delete_customer 2 db' = (mkResponse 500 (BException NotFound), db').
Proof.
  apply (delete_then_missing 2 no_fields (seed_rows 0)). lia.
Defined.

(** X6.  An update with the empty JSON object writes nothing: for an
    existing customer of a table that satisfies its constraints the answer
    is 200 with the customer as stored, and the store is the same. *)
Theorem update_no_fields (customer_id : Z) (db : store) (c : Customer) :
  store_ok db -> query_get customer_id db = Some c ->
  update_customer customer_id no_fields db =
    (mkResponse 200 (BCustomer (to_dict c)), db).
Proof.
  intros Hok Hget.
  rewrite (update_customer_accepted customer_id no_fields db c Hok Hget).
  - rewrite assign_no_fields. f_equal.
    destruct (split_at_id _ _ _ (ok_ids _ Hok) Hget) as (l1 & l2 & -> & Hid & H1 & H2).
    apply replace_row_split; [reflexivity| |]; rewrite Hid; assumption.
  - split; [discriminate|]. split; [discriminate|]. split; discriminate.
Qed.

Lemma update_no_fields_witness :
  update_customer 4 no_fields (seed_rows 0) =
    (mkResponse 200
       (BCustomer
          (to_dict
             (mkCustomer 4 (Some "Alice Brown") (Some "alice@example.com")
                (Some "active") (Some 22) (Some 4200.25%Q) 0))),
     seed_rows 0).
Proof.
  apply (update_no_fields 4 (seed_rows 0)).
  - apply store_ok_seed.
  - reflexivity.
Defined.

(** X7.  An update request sent a second time gives the same answer and
    leaves the store of the first: whether the first was accepted, refused
    by a constraint or met no customer. *)
Theorem update_twice (customer_id : Z) (data : payload) (db : store) :
  update_customer customer_id data (snd (update_customer customer_id data db)) =
    update_customer customer_id data db.
Proof.
  rewrite (update_customer_eq customer_id data db).
  destruct (query_get customer_id db) as [c|] eqn:Hget; cbn [snd].
  2:{ rewrite update_customer_eq, Hget. reflexivity. }
  cbn zeta.
  destruct (bind_changed c (assign_fields data c)) as [[]|x] eqn:Hb; cbn [snd].
  2:{ rewrite update_customer_eq, Hget. cbn zeta. now rewrite Hb. }
  destruct (check_not_null (assign_fields data c)) as [[]|x] eqn:Hnn; cbn [snd].
  2:{ rewrite update_customer_eq, Hget. cbn zeta. now rewrite Hb, Hnn. }
  destruct (check_unique (assign_fields data c) (others_of customer_id db))
    as [[]|x] eqn:Hu; cbn [snd].
  2:{ rewrite update_customer_eq, Hget. cbn zeta. now rewrite Hb, Hnn, Hu. }
  destruct (query_get_Some _ _ _ Hget) as [_ Hid].
  pose proof (query_get_replace_row (assign_fields data c) c db) as Hq.
  pose proof (others_of_replace_row (assign_fields data c) db) as Ho.
  change (id (assign_fields data c)) with (id c) in Hq, Ho.
  rewrite Hid in Hq, Ho.
  rewrite update_customer_eq, (Hq Hget). cbn zeta.
  rewrite assign_fields_twice.
  unfold bind_changed at 1. rewrite same_int_refl.
  rewrite Hnn, Ho, Hu.
  now rewrite replace_row_twice.
Qed.

(** X8.  A writing request either succeeds or leaves the store as it was:
    create answers 201, or else 400 or 500 without a write; update, for an
    id of the route, answers 200, or else 500 without a write; delete
    answers 204, or else 500 without a write. *)
Theorem failure_keeps_store (now : datetime) (customer_id : Z) (data : payload)
  (db : store) :
  0 <= customer_id ->
  (code (fst (create_customer now data db)) = 201 \/
   (code (fst (create_customer now data db)) = 400 \/
    code (fst (create_customer now data db)) = 500) /\
   snd (create_customer now data db) = db) /\
  (code (fst (update_customer customer_id data db)) = 200 \/
   code (fst (update_customer customer_id data db)) = 500 /\
   snd (update_customer customer_id data db) = db) /\
  (code (fst (delete_customer customer_id db)) = 204 \/
   code (fst (delete_customer customer_id db)) = 500 /\
   snd (delete_customer customer_id db) = db).
Proof.
  intros _. split; [|split].
  - destruct (create_customer_cases now data db)
      as [H|(n & e & Hn & Hn' & He & He' & [(c & Hin & Hc)|Hfresh])].
    + right. rewrite create_customer_invalid by assumption. auto.
    + right. rewrite (create_customer_duplicate now data db n e c) by assumption.
      auto.
    + destruct (counter_fits_dec data) as [Hfit|(k & Hk & Hbig)].
      * left. now rewrite (create_customer_fresh now data db n e).
      * right. rewrite (create_customer_overflow now data db n e k) by assumption.
        auto.
  - rewrite update_customer_eq.
    destruct (query_get customer_id db) as [c|]; [|now right]. cbn zeta.
    destruct (bind_changed _ _) as [[]|x]; [|now right].
    destruct (check_not_null _) as [[]|x]; [|now right].
    destruct (check_unique _ _) as [[]|x]; [now left|now right].
  - destruct (query_get customer_id db) as [c|] eqn:Hget.
    + left. now rewrite (delete_customer_found _ _ c).
    + right. now rewrite delete_customer_missing.
Qed.

Lemma failure_keeps_store_witness :
  let data := mkPayload (Val "Eve Adams") (Val "eve@example.com") Absent
                (Val (2 ^ 63)) Absent in
  (code (fst (create_customer 7 data (seed_rows 0))) = 201 \/
   (code (fst (create_customer 7 data (seed_rows 0))) = 400 \/
    code (fst (create_customer 7 data (seed_rows 0))) = 500) /\
   snd (create_customer 7 data (seed_rows 0)) = seed_rows 0) /\
  (code (fst (update_customer 9 data (seed_rows 0))) = 200 \/
   code (fst (update_customer 9 data (seed_rows 0))) = 500 /\
   snd (update_customer 9 data (seed_rows 0)) = seed_rows 0) /\
  (code (fst (delete_customer 9 (seed_rows 0))) = 204 \/
   code (fst (delete_customer 9 (seed_rows 0))) = 500 /\
   snd (delete_customer 9 (seed_rows 0)) = seed_rows 0).
Proof.
  apply (failure_keeps_store 7 9
           (mkPayload (Val "Eve Adams") (Val "eve@example.com") Absent
              (Val (2 ^ 63)) Absent)
           (seed_rows 0)).
  lia.
Defined.

(** X9.  An update request, accepted or not, touches no other customer: the
    rows with another id are the same, in the same order, and the ids of the
    table are the same. *)
Theorem update_frame (customer_id : Z) (data : payload) (db : store) :
  others_of customer_id (snd (update_customer customer_id data db)) =
    others_of customer_id db /\
  map id (snd (update_customer customer_id data db)) = map id db.
Proof.
  destruct (update_customer_store customer_id data db)
    as [->|(c & Hget & _ & _ & ->)]; [now split|].
  destruct (query_get_Some _ _ _ Hget) as [_ Hid].
  split.
  - rewrite <- Hid. apply (others_of_replace_row (assign_fields data c)).
  - apply map_id_replace_row.
Qed.



(** ** Statistics and the other operations *)

Lemma count_active_le (db : store) : (count_active db <= List.length db)%nat.
Proof.
  induction db as [|c db IH]; simpl; [lia|].
  destruct (status c) as [s|]; [destruct (string_dec s "active")|]; lia.
Qed.

(** X11.  Whenever the stats operation answers 200, whatever the rounding
    of the arithmetic on amounts, its counts are those of the list:
    totalCustomers is the length of the list the list operation answers,
    and activeCustomers lies between 0 and totalCustomers. *)
Theorem stats_counts (ar : arith) (db : store) (s : stats) :
  get_stats_with ar db = mkResponse 200 (BStats s) ->
  exists l,
    get_customers db = mkResponse 200 (BCustomers l) /\
    totalCustomers s = Z.of_nat (List.length l) /\
    0 <= activeCustomers s <= totalCustomers s.
Proof.
  unfold get_stats_with, get_stats_try. intros H.
  eexists. split; [reflexivity|]. rewrite length_map.
  destruct (sql_sum_int (map total_orders db)) as [v|x]; cbn [bind] in H;
    [|discriminate].
  destruct (if 0 <? or_zero_Z v then _ else _) as [q|x]; cbn [bind] in H;
    [|discriminate].
  injection H as <-. cbn [totalCustomers activeCustomers].
  split; [reflexivity|].
  rewrite active_count. pose proof (count_active_le db). lia.
Qed.

Lemma stats_counts_witness :
  exists l,
    get_customers (seed_rows 0) = mkResponse 200 (BCustomers l) /\
    5 = Z.of_nat (List.length l) /\
    0 <= 3 <= 5.
Proof.
  apply (stats_counts exact_arith (seed_rows 0)
           (mkStats 5 3 8751.5000000000%Q (87515000000000 # 480000000000))).
  reflexivity.
Defined.

(** ** Emails across requests *)





